(** * The SSH terminal bridge of server/src/index.ts: session relay

    A shallow embedding of the per-connection closure created by
    [wss.on('connection', ...)]: its four mutable variables, the [cleanup]
    helper and every event handler it registers, followed by the properties
    of the relay that the handlers establish.

    Conventions of the embedding.
    - Every handler is a function from the session variables to the new
      variables and the ordered log of the calls it made on the WebSocket,
      on the ssh2 [Client] and on the shell [ClientChannel].
    - [ws.readyState] belongs to the WebSocket library: each handler
      invocation receives the value it would read.
    - [JSON.parse(..) as IncomingMessage] asserts the type of a frame and
      checks nothing, so the properties of a message are JavaScript values
      ([JsValue]): whatever the JSON text carried, undefined when absent.
    - JavaScript numbers are integers, modelled by [Z]; numbers with a
      fraction are not represented.
    - A JavaScript string is modelled by the byte string of its UTF-8
      encoding, so that a [Buffer] and the text decoded from it live in the
      same type and can be compared. *)

From Stdlib Require Import ZArith NArith List String Ascii Bool Lia.
Import ListNotations.
Local Open Scope string_scope.
Local Open Scope list_scope.

(** ** JavaScript values *)

(** A value read from a property of a parsed frame. [JsUndefined] is what
    reading an absent property gives; [JsObject] stands for any array or
    object. *)
Inductive JsValue :=
| JsUndefined
| JsNull
| JsBoolean (b : bool)
| JsNumber (n : Z)
| JsString (s : string)
| JsObject.

Coercion JsNumber : Z >-> JsValue.
Coercion JsString : string >-> JsValue.

(** The value of an expression [v * k]. It is followed where JavaScript's
    arithmetic on doubles is exact, that is for integers within the range
    in which every integer is a double (up to 2^53 in absolute value);
    elsewhere (a larger number, or a [v] that is not a number and that
    JavaScript would first coerce to one) the product is kept as written. *)
Inductive JsProduct :=
| Product (n : Z)
| ProductOf (v : JsValue) (k : Z).

Definition safe (z : Z) : bool := (Z.abs z <=? 9007199254740992)%Z.

Definition js_times (v : JsValue) (k : Z) : JsProduct :=
  match v with
  | JsNumber n =>
      if safe n && safe k && safe (n * k) then Product (n * k)
      else ProductOf v k
  | _ => ProductOf v k
  end.

Declare Scope js_scope.
Delimit Scope js_scope with js.
Bind Scope js_scope with JsValue JsProduct.
Notation "x * y" := (js_times x y%Z)
  (at level 40, left associativity) : js_scope.

Definition js_of_Z (z : Z) : JsValue := JsNumber z.

Definition Z_of_js (v : JsValue) : option Z :=
  match v with JsNumber z => Some z | _ => None end.

Number Notation JsValue js_of_Z Z_of_js : js_scope.

(** [!x]: undefined, null, false, 0 and the empty string are falsy. *)
Definition falsy (x : JsValue) : bool :=
  match x with
  | JsUndefined | JsNull => true
  | JsBoolean b => negb b
  | JsNumber n => (n =? 0)%Z
  | JsString EmptyString => true
  | JsString _ => false
  | JsObject => false
  end.

(** The default of a destructuring pattern, used when the property is
    undefined. *)
Definition default (d : Z) (x : JsValue) : JsValue :=
  match x with JsUndefined => d | _ => x end.

(** ** Messages *)

(** [StatusMessage]: the two outbound frame shapes. *)
Inductive StatusKind :=
  st_connecting | st_connected | st_disconnected | st_error.

Inductive StatusMessage :=
| Status (status : StatusKind) (message : option string)
| Output (data : string).

(** [ConnectMessage]: declared with [host], [username], [password] of type
    string and [port], [cols], [rows] optional numbers. *)
Record ConnectMessage := {
  host : JsValue;
  username : JsValue;
  password : JsValue;
  port : JsValue;
  cols : JsValue;
  rows : JsValue
}.

(** [IncomingMessage], the union of the four inbound interfaces: [data] is
    declared a string, [cols] and [rows] numbers. *)
Inductive IncomingMessage :=
| Connect (m : ConnectMessage)
| Input (data : JsValue)
| Resize (cols rows : JsValue)
| Disconnect.

(** What [JSON.parse(raw.toString())] hands to the message handler, as far
    as the handler's control flow tells frames apart:
    - [NotJson]: [JSON.parse] throws, the [catch] branch runs;
    - [Typed m]: an object whose [type] is one of the four tags, which
      the cast takes for an [IncomingMessage]; its other properties may
      be absent or of another type than declared;
    - [UnknownTag]: any other non-null JSON value: its [type] property is
      undefined or is none of the four tags, so the [if] is skipped and the
      [switch] reaches [default];
    - [JsonNull]: the JSON text [null], on which reading [parsed.type]
      throws a TypeError. *)
Inductive frame :=
| NotJson
| Typed (m : IncomingMessage)
| UnknownTag
| JsonNull.

(** ** The objects the closure talks to *)

Inductive ReadyState := CONNECTING | OPEN | CLOSING | CLOSED.

Record WebSocket := { readyState : ReadyState }.

Definition is_open (ws : WebSocket) : bool :=
  match readyState ws with OPEN => true | _ => false end.

(** Identity of an ssh2 [Client] object: the number of [new Client()]
    evaluated before it by this closure. *)
Definition Client := nat.

(** Identity of a shell stream, chosen by ssh2. *)
Definition ClientChannel := nat.

(** A Node [Buffer]: a sequence of bytes. *)
Definition Buffer := string.

(** The calls a handler makes, in program order. *)
Inductive effect :=
| Send (message : StatusMessage)
    (* ws.send(JSON.stringify(message)) *)
| NewClient (c : Client)
    (* new Client() *)
| ClientOn (c : Client) (cols rows : JsValue)
    (* .on('ready', ..).on('error', ..).on('end', ..); the 'ready' closure
       captures cols and rows *)
| ClientConnect (c : Client) (host username password port : JsValue)
    (* .connect({ host, username, password, port, .. }); tryKeyboard and
       readyTimeout are constants of the process environment *)
| ClientShell (c : Client) (cols rows : JsValue) (term : string)
    (* .shell({ cols, rows, term }, callback) *)
| ClientEnd (c : Client)
| StreamSetWindow (ch : ClientChannel) (rows cols : JsValue)
    (height width : JsProduct)
| StreamOn (ch : ClientChannel)
    (* stream.on('data', ..).on('close', ..).stderr.on('data', ..) *)
| StreamWrite (ch : ClientChannel) (data : JsValue)
    (* sshStream.write(parsed.data); what the stream does with a value
       that is not a string is the library's *)
| StreamEnd (ch : ClientChannel)
| Throw (name : string).
    (* an exception that leaves the handler *)

(** ** Session variables *)

(** The [let] variables of the connection closure. [allocated] counts the
    [Client] objects constructed so far; it is the source of fresh
    identities and is not a variable of the program. *)
Record session := {
  sshClient : option Client;
  sshStream : option ClientChannel;
  connected : bool;
  pendingResize : option (JsValue * JsValue);   (* { cols, rows } *)
  allocated : nat
}.

Definition initial : session :=
  {| sshClient := None; sshStream := None; connected := false;
     pendingResize := None; allocated := 0 |}.

(** ** Handlers as state-and-log computations *)

Definition handler (A : Type) : Type := session -> A * session * list effect.

Definition ret {A} (a : A) : handler A := fun s => (a, s, []).

Definition bind {A B} (m : handler A) (k : A -> handler B) : handler B :=
  fun s =>
    let '(a, s1, l1) := m s in
    let '(b, s2, l2) := k a s1 in
    (b, s2, l1 ++ l2).

Declare Scope handler_scope.
Delimit Scope handler_scope with handler.
Notation "x <- m ;; k" := (bind m (fun x => k))
  (at level 61, m at next level, right associativity) : handler_scope.
Notation "m ;; k" := (bind m (fun _ => k))
  (at level 61, right associativity) : handler_scope.
Local Open Scope handler_scope.

Definition read {A} (field : session -> A) : handler A :=
  fun s => (field s, s, []).

Definition call (e : effect) : handler unit := fun s => (tt, s, [e]).

Definition set_sshClient (v : option Client) : handler unit :=
  fun s => (tt, {| sshClient := v; sshStream := sshStream s;
                   connected := connected s;
                   pendingResize := pendingResize s;
                   allocated := allocated s |}, []).

Definition set_sshStream (v : option ClientChannel) : handler unit :=
  fun s => (tt, {| sshClient := sshClient s; sshStream := v;
                   connected := connected s;
                   pendingResize := pendingResize s;
                   allocated := allocated s |}, []).

Definition set_connected (v : bool) : handler unit :=
  fun s => (tt, {| sshClient := sshClient s; sshStream := sshStream s;
                   connected := v;
                   pendingResize := pendingResize s;
                   allocated := allocated s |}, []).

Definition set_pendingResize (v : option (JsValue * JsValue))
  : handler unit :=
  fun s => (tt, {| sshClient := sshClient s; sshStream := sshStream s;
                   connected := connected s;
                   pendingResize := v;
                   allocated := allocated s |}, []).

(** [new Client()]: a fresh object. *)
Definition new_Client : handler Client :=
  fun s => (allocated s,
            {| sshClient := sshClient s; sshStream := sshStream s;
               connected := connected s;
               pendingResize := pendingResize s;
               allocated := S (allocated s) |},
            [NewClient (allocated s)]).

Definition state_after {A} (r : A * session * list effect) : session :=
  snd (fst r).

Definition log_of {A} (r : A * session * list effect) : list effect :=
  snd r.

(** ** [Buffer.toString('utf-8')]

    The library function that the two ['data'] handlers apply to every chunk
    is not part of the repository. It is modelled on Node's documented
    behaviour (the UTF-8 decoder of the Encoding Standard, without byte
    order mark handling): a well-formed sequence is kept, every maximal
    ill-formed prefix is replaced by U+FFFD. The result is written in
    UTF-8 again, as every string of this development is. *)

Module Utf8.

Definition byte (n : N) : ascii := ascii_of_N n.

(** U+FFFD REPLACEMENT CHARACTER, in UTF-8. *)
Definition replacement : string :=
  String (byte 0xEF) (String (byte 0xBF) (String (byte 0xBD) EmptyString)).

Definition in_range (lo hi b : N) : bool := ((lo <=? b) && (b <=? hi))%N.

(** A sequence that has begun: the bytes read, the number of continuation
    bytes still missing and the bounds for the next one. *)
Record partial := {
  seen : string;
  needed : nat;
  lower : N;
  upper : N
}.

Definition lead (a : ascii) (k : option partial -> string) : string :=
  let b := N_of_ascii a in
  let one := String a EmptyString in
  if (b <=? 0x7F)%N then String a (k None)
  else if in_range 0xC2 0xDF b then
    k (Some {| seen := one; needed := 1; lower := 0x80; upper := 0xBF |})
  else if in_range 0xE0 0xEF b then
    k (Some {| seen := one; needed := 2;
               lower := if (b =? 0xE0)%N then 0xA0 else 0x80;
               upper := if (b =? 0xED)%N then 0x9F else 0xBF |})
  else if in_range 0xF0 0xF4 b then
    k (Some {| seen := one; needed := 3;
               lower := if (b =? 0xF0)%N then 0x90 else 0x80;
               upper := if (b =? 0xF4)%N then 0x8F else 0xBF |})
  else (replacement ++ k None)%string.

Fixpoint decode (p : option partial) (s : string) : string :=
  match s with
  | EmptyString =>
      match p with
      | None => EmptyString
      | Some _ => replacement
      end
  | String a rest =>
      match p with
      | None => lead a (fun q => decode q rest)
      | Some q =>
          if in_range (lower q) (upper q) (N_of_ascii a) then
            match needed q with
            | S (S n) =>
                decode (Some {| seen := (seen q ++ String a EmptyString)%string;
                                needed := S n;
                                lower := 0x80; upper := 0xBF |}) rest
            | _ => (seen q ++ String a (decode None rest))%string
            end
          else (replacement ++ lead a (fun q => decode q rest))%string
      end
  end.

(** Well-formed UTF-8, said independently of the decoder: the encoding of
    a sequence of Unicode scalar values (code points outside the surrogate
    range). *)
Definition is_scalar_value (cp : N) : bool :=
  ((cp <? 0xD800) || ((0xE000 <=? cp) && (cp <=? 0x10FFFF)))%N.

Definition encode_cp (cp : N) : string :=
  (if cp <? 0x80 then
     String (byte cp) EmptyString
   else if cp <? 0x800 then
     String (byte (0xC0 + cp / 0x40))
       (String (byte (0x80 + cp mod 0x40)) EmptyString)
   else if cp <? 0x10000 then
     String (byte (0xE0 + cp / 0x1000))
       (String (byte (0x80 + (cp / 0x40) mod 0x40))
          (String (byte (0x80 + cp mod 0x40)) EmptyString))
   else
     String (byte (0xF0 + cp / 0x40000))
       (String (byte (0x80 + (cp / 0x1000) mod 0x40))
          (String (byte (0x80 + (cp / 0x40) mod 0x40))
             (String (byte (0x80 + cp mod 0x40)) EmptyString))))%N.

Fixpoint encode (text : list N) : string :=
  match text with
  | [] => EmptyString
  | cp :: rest => (encode_cp cp ++ encode rest)%string
  end.

End Utf8.

Import Utf8.

Definition toString_utf8 (data : Buffer) : string := decode None data.

Definition well_formed_utf8 (data : Buffer) : Prop :=
  exists text, forallb is_scalar_value text = true /\ data = encode text.

(** ** Top-level helpers *)

Definition sendStatus (ws : WebSocket) (message : StatusMessage)
  : handler unit :=
  if is_open ws then call (Send message) else ret tt.

Definition present {A} (x : option A) : bool :=
  match x with Some _ => true | None => false end.

(** ** The closure of [wss.on('connection', (ws) => ...)] *)

Section Connection.

Variable ws : WebSocket.

Definition cleanup : handler unit :=
  stream <- read sshStream ;;
  match stream with
  | Some ch => call (StreamEnd ch) ;; set_sshStream None
  | None => ret tt
  end ;;
  client <- read sshClient ;;
  match client with
  | Some c => call (ClientEnd c) ;; set_sshClient None
  | None => ret tt
  end ;;
  set_connected false ;;
  set_pendingResize None.

(** [sshClient.on('ready', ...)]; [cols] and [rows] are the constants of
    the connect invocation that registered the listener. *)
Definition on_ready (cols rows : JsValue) : handler unit :=
  sendStatus ws (Status st_connected None) ;;
  set_connected true ;;
  client <- read sshClient ;;
  match client with
  | Some c => call (ClientShell c cols rows "xterm-color")
  | None => ret tt
  end.

(** The callback given to [shell]: [err] is the message of the Error, when
    there is one. *)
Definition on_shell (err : option string)
    (stream : option ClientChannel) : handler unit :=
  match err, stream with
  | None, Some ch =>
      set_sshStream (Some ch) ;;
      pending <- read pendingResize ;;
      match pending with
      | Some (pendingCols, pendingRows) =>
          call (StreamSetWindow ch pendingRows pendingCols
                  (pendingRows * 8) (pendingCols * 8)) ;;
          set_pendingResize None
      | None => ret tt
      end ;;
      call (StreamOn ch)
  | _, _ =>
      sendStatus ws
        (Status st_error
           (Some match err with
                 | Some message => message
                 | None => "Failed to open shell"
                 end)) ;;
      cleanup
  end.

Definition on_stream_data (data : Buffer) : handler unit :=
  sendStatus ws (Output (toString_utf8 data)).

Definition on_stream_close : handler unit :=
  sendStatus ws (Status st_disconnected (Some "Remote stream closed")) ;;
  cleanup.

Definition on_stderr_data (data : Buffer) : handler unit :=
  sendStatus ws (Output (toString_utf8 data)).

Definition on_ssh_error (message : string) : handler unit :=
  sendStatus ws (Status st_error (Some message)) ;;
  cleanup.

Definition on_ssh_end : handler unit :=
  sendStatus ws (Status st_disconnected (Some "SSH session ended")) ;;
  cleanup.

Definition on_connect (m : ConnectMessage) : handler unit :=
  isConnected <- read connected ;;
  if isConnected then
    sendStatus ws (Status st_error (Some "Already connected"))
  else
    let sshPort := default 22 (port m) in
    let cols := default 80 (cols m) in
    let rows := default 24 (rows m) in
    if falsy (host m) || falsy (username m) || falsy (password m) then
      sendStatus ws (Status st_error (Some "Missing required credentials"))
    else
      c <- new_Client ;;
      set_sshClient (Some c) ;;
      sendStatus ws (Status st_connecting None) ;;
      call (ClientOn c cols rows) ;;
      call (ClientConnect c (host m) (username m) (password m) sshPort).

Definition on_message (raw : frame) : handler unit :=
  match raw with
  | NotJson =>
      sendStatus ws (Status st_error (Some "Invalid message format"))
  | JsonNull => call (Throw "TypeError")
  | Typed (Connect m) => on_connect m
  | Typed (Input data) =>
      isConnected <- read connected ;;
      stream <- read sshStream ;;
      match stream with
      | Some ch =>
          if isConnected then call (StreamWrite ch data)
          else sendStatus ws (Status st_error (Some "No active connection"))
      | None =>
          sendStatus ws (Status st_error (Some "No active connection"))
      end
  | Typed (Resize cols rows) =>
      stream <- read sshStream ;;
      match stream with
      | Some ch => call (StreamSetWindow ch rows cols (rows * 8) (cols * 8))
      | None => set_pendingResize (Some (cols, rows))
      end
  | Typed Disconnect =>
      isConnected <- read connected ;;
      stream <- read sshStream ;;
      (if isConnected || present stream then
         sendStatus ws
           (Status st_disconnected (Some "Disconnected by client"))
       else ret tt) ;;
      cleanup
  | UnknownTag => ret tt
  end.

Definition on_close : handler unit := cleanup.

Definition on_error : handler unit := cleanup.

End Connection.

(** ** Events and runs *)

(** One invocation of a registered listener or callback by the runtime. *)
Inductive event :=
| WsMessage (raw : frame)
| WsClose
| WsError
| SshReady (cols rows : JsValue)
| SshError (message : string)
| SshEnd
| ShellCallback (err : option string) (stream : option ClientChannel)
| StreamData (data : Buffer)
| StreamClose
| StderrData (data : Buffer).

Definition dispatch (ws : WebSocket) (e : event) : handler unit :=
  match e with
  | WsMessage raw => on_message ws raw
  | WsClose => on_close
  | WsError => on_error
  | SshReady cols rows => on_ready ws cols rows
  | SshError message => on_ssh_error ws message
  | SshEnd => on_ssh_end ws
  | ShellCallback err stream => on_shell ws err stream
  | StreamData data => on_stream_data ws data
  | StreamClose => on_stream_close ws
  | StderrData data => on_stderr_data ws data
  end.

(** The event loop runs the handlers one after the other; each delivery
    comes with the WebSocket as the handler finds it. *)
Fixpoint run (deliveries : list (WebSocket * event)) : handler unit :=
  match deliveries with
  | [] => ret tt
  | (ws, e) :: rest => dispatch ws e ;; run rest
  end.

(** Deliveries that all find the WebSocket in the same state. *)
Definition deliver (ws : WebSocket) (events : list event)
  : list (WebSocket * event) :=
  map (fun e => (ws, e)) events.

Definition ws_open : WebSocket := {| readyState := OPEN |}.

(** ** Observations on a log *)

(** The frames put on the WebSocket, in order. *)
Fixpoint sent (log : list effect) : list StatusMessage :=
  match log with
  | [] => []
  | Send message :: rest => message :: sent rest
  | _ :: rest => sent rest
  end.

(** The [Client] objects constructed and not ended by the calls of a log,
    oldest first. *)
Definition track_client (live : list Client) (e : effect) : list Client :=
  match e with
  | NewClient c => live ++ [c]
  | ClientEnd c => remove Nat.eq_dec c live
  | _ => live
  end.

Definition live_clients (log : list effect) : list Client :=
  fold_left track_client log [].

(** The session as [cleanup] leaves it, and the calls [cleanup] makes. *)
Definition cleaned (s : session) : session :=
  {| sshClient := None; sshStream := None; connected := false;
     pendingResize := None; allocated := allocated s |}.

Definition release (s : session) : list effect :=
  match sshStream s with Some ch => [StreamEnd ch] | None => [] end ++
  match sshClient s with Some c => [ClientEnd c] | None => [] end.

(** The session is relaying: the test of the ['input'] case. *)
Definition active (s : session) : bool :=
  connected s && present (sshStream s).

(** The events after which the remote side is gone or given up. *)
Definition teardown (e : event) : bool :=
  match e with
  | WsMessage (Typed Disconnect) => true
  | WsClose | WsError => true
  | SshError _ | SshEnd => true
  | StreamClose => true
  | ShellCallback err stream => present err || negb (present stream)
  | _ => false
  end.

(** The [cols], [rows] pairs of the resize messages of a run. *)
Fixpoint resizes_of (deliveries : list (WebSocket * event))
  : list (JsValue * JsValue) :=
  match deliveries with
  | [] => []
  | (_, WsMessage (Typed (Resize cols rows))) :: rest =>
      (cols, rows) :: resizes_of rest
  | _ :: rest => resizes_of rest
  end.

(** Resize messages, one per [cols], [rows] pair. *)
Definition resize_events (sizes : list (Z * Z)) : list event :=
  map (fun size : Z * Z => WsMessage (Typed (Resize (fst size) (snd size))))
    sizes.

(** The session with another pending resize. *)
Definition with_pending_values (s : session)
    (pending : option (JsValue * JsValue)) : session :=
  {| sshClient := sshClient s; sshStream := sshStream s;
     connected := connected s; pendingResize := pending;
     allocated := allocated s |}.

Definition with_pending (s : session) (pending : option (Z * Z)) : session :=
  with_pending_values s
    (option_map (fun size => (JsNumber (fst size), JsNumber (snd size)))
       pending).

(** A session that is relaying: client 0 authenticated, shell stream 7. *)
Definition relaying : session :=
  {| sshClient := Some 0; sshStream := Some 7; connected := true;
     pendingResize := None; allocated := 1 |}.

(** Scenario A of the protocol description. *)
Definition scenario_connect : ConnectMessage :=
  {| host := "10.0.0.5"; username := "root"; password := "x";
     port := 22; cols := 80; rows := 24 |}.

(** The session after the Connect of scenario A, before any answer of the
    remote side: client 0 exists and is not authenticated. *)
Definition awaiting_ready : session :=
  state_after
    (run (deliver ws_open [WsMessage (Typed (Connect scenario_connect))])
       initial).

(** A session in which 120 x 40 is pending when a teardown comes. *)
Definition resized_early : session :=
  {| sshClient := Some 0; sshStream := None; connected := true;
     pendingResize := Some (JsNumber 120, JsNumber 40); allocated := 1 |}.

(** A reconnect after a teardown, with its own resize. *)
Definition reconnect : list (WebSocket * event) :=
  deliver ws_open
    [WsMessage (Typed (Connect scenario_connect));
     WsMessage (Typed (Resize 100 30));
     SshReady 80 24;
     ShellCallback None (Some 7)].

(** A second attempt that starts before the first is authenticated, with
    a resize in between; then the ['ready'] event and the shell. *)
Definition overlapping_attempts : list (WebSocket * event) :=
  deliver ws_open
    [WsMessage (Typed (Connect scenario_connect));
     WsMessage (Typed (Resize 120 40));
     WsMessage (Typed (Connect scenario_connect));
     SshReady 80 24;
     ShellCallback None (Some 7)].


(** The two bytes of U+00E9, one per chunk. *)
Definition split_e_acute : list Buffer :=
  [String (byte 0xC3) EmptyString; String (byte 0xA9) EmptyString].

(** ** Further observations *)

(** The calls of a log that end a handle. *)
Definition is_end (e : effect) : bool :=
  match e with
  | ClientEnd _ | StreamEnd _ => true
  | _ => false
  end.

Definition released (log : list effect) : list effect := filter is_end log.

(** The calls of a log made on the remote side, that is all but the frames
    sent on the WebSocket. *)
Definition is_send (e : effect) : bool :=
  match e with Send _ => true | _ => false end.

Definition remote_calls (log : list effect) : list effect :=
  filter (fun e => negb (is_send e)) log.

(** The data written on a shell stream by the calls of a log, in order. *)
Fixpoint writes (log : list effect) : list JsValue :=
  match log with
  | [] => []
  | StreamWrite _ data :: rest => data :: writes rest
  | _ :: rest => writes rest
  end.

(** The data of the input messages of a run, in order. *)
Fixpoint inputs_of (deliveries : list (WebSocket * event))
  : list JsValue :=
  match deliveries with
  | [] => []
  | (_, WsMessage (Typed (Input data))) :: rest => data :: inputs_of rest
  | _ :: rest => inputs_of rest
  end.

Definition input_events (datas : list string) : list event :=
  map (fun data : string => WsMessage (Typed (Input data))) datas.

(** Chunks of the shell stream, each from stdout ([false]) or from stderr
    ([true]). *)
Definition chunk_event (chunk : bool * Buffer) : event :=
  if fst chunk then StderrData (snd chunk) else StreamData (snd chunk).

(** A resize is pending although a shell stream exists. *)
Definition pending_beside_stream (s : session) : bool :=
  present (sshStream s) && present (pendingResize s).

(** The Client the session refers to, as a list. *)
Definition held (s : session) : list Client :=
  match sshClient s with Some c => [c] | None => [] end.

(** A run in which every Connect message finds the session without
    Client: the peer waits for the end of an attempt before it starts the
    next one. *)
Fixpoint orderly (deliveries : list (WebSocket * event)) (s : session)
  : bool :=
  match deliveries with
  | [] => true
  | (ws, e) :: rest =>
      match e with
      | WsMessage (Typed (Connect _)) => negb (present (sshClient s))
      | _ => true
      end
      && orderly rest (state_after (dispatch ws e s))
  end.

(** The two completions of the remote side that a relaying session needs:
    the ['ready'] event and the shell callback that delivers a stream. *)
Definition is_ready (delivery : WebSocket * event) : bool :=
  match snd delivery with SshReady _ _ => true | _ => false end.

Definition is_shell (delivery : WebSocket * event) : bool :=
  match snd delivery with
  | ShellCallback None (Some _) => true
  | _ => false
  end.

(** The session right after an accepted Connect in session [s]. *)
Definition connecting_from (s : session) : session :=
  {| sshClient := Some (allocated s); sshStream := sshStream s;
     connected := false; pendingResize := pendingResize s;
     allocated := S (allocated s) |}.

(** The calls of an accepted Connect in session [s]. *)
Definition connect_calls (m : ConnectMessage) (s : session) : list effect :=
  [NewClient (allocated s);
   Send (Status st_connecting None);
   ClientOn (allocated s) (default 80 (cols m)) (default 24 (rows m));
   ClientConnect (allocated s) (host m) (username m) (password m)
     (default 22 (port m))].

(** A Connect without password. *)
Definition no_password : ConnectMessage :=
  {| host := "10.0.0.5"; username := "root"; password := EmptyString;
     port := JsUndefined; cols := JsUndefined; rows := JsUndefined |}.

(** A whole session: connect, early resize, shell, input, output, remote
    close, and a second connect. *)
Definition two_sessions : list (WebSocket * event) :=
  deliver ws_open
    [WsMessage (Typed (Connect scenario_connect));
     WsMessage (Typed (Resize 120 40));
     SshReady 80 24;
     ShellCallback None (Some 7);
     WsMessage (Typed (Input "ls"));
     StreamData "prompt$ ";
     WsMessage (Typed (Resize 100 30));
     StreamClose;
     WsMessage (Typed (Connect scenario_connect))].

(** ** Proof automation *)

(** Closes a goal that says a call is absent from an explicit log. *)
Ltac not_in_log :=
  let H := fresh "H" in
  intros ? H; simpl in H;
  repeat (destruct H as [H|H]; [discriminate H|]); exact H.

(** Settles a goal that follows from the membership of a call in an
    explicit log, or from an equation on an explicit pending resize. *)
Ltac in_log :=
  repeat match goal with
         | H : In _ _ |- _ => simpl in H
         | H : _ \/ _ |- _ => destruct H
         | H : False |- _ => contradiction
         | H : StreamSetWindow _ _ _ _ _ = StreamSetWindow _ _ _ _ _ |- _ =>
             injection H as <- <- <- <- <-
         | H : Some _ = Some _ |- _ => injection H as <- <-
         | H : _ = _ |- _ => discriminate H
         end;
  auto.

(** Bounds on the bytes of an encoding: quotients and remainders by
    constants. *)
Ltac byte_arith := zify; Z.to_euclidean_division_equations; lia.

(** Splits a statement about one handler invocation into the cases of the
    event, of the session variables and of the socket state, and leaves the
    credentials test of a Connect as a last case. *)
Ltac handler_cases ws e s :=
  destruct ws as [[]];
  destruct e as [[|[?m|?data|?cols ?rows|]| |]| | |?cols ?rows|?msg|
                 |[?msg|] [?ch|]|?data| |?data];
  destruct s as [[?c|] [?ch|] [|] [[?pc ?pr]|] ?n];
  simpl;
  try (unfold on_connect, bind, read; simpl);
  try match goal with
      | |- context [falsy (host ?m) || falsy (username ?m)
                    || falsy (password ?m)] =>
          destruct (falsy (host m) || falsy (username m)
                    || falsy (password m)); simpl
      end.

(** ** Basic facts *)

Lemma cleanup_spec (s : session) :
  cleanup s = (tt, cleaned s, release s).
Proof.
  destruct s as [[c|] [ch|] b p n]; reflexivity.
Qed.

Lemma sendStatus_open (ws : WebSocket) (message : StatusMessage) (s : session) :
  is_open ws = true -> sendStatus ws message s = (tt, s, [Send message]).
Proof.
  intros Hopen. unfold sendStatus. rewrite Hopen. reflexivity.
Qed.

Lemma session_eta (s : session) :
  {| sshClient := sshClient s; sshStream := sshStream s;
     connected := connected s; pendingResize := pendingResize s;
     allocated := allocated s |} = s.
Proof. destruct s; reflexivity. Qed.

Lemma run_cons (ws : WebSocket) (e : event)
    (rest : list (WebSocket * event)) (s : session) :
  state_after (run ((ws, e) :: rest) s)
    = state_after (run rest (state_after (dispatch ws e s))) /\
  log_of (run ((ws, e) :: rest) s)
    = log_of (dispatch ws e s)
        ++ log_of (run rest (state_after (dispatch ws e s))).
Proof.
  simpl. unfold bind, state_after, log_of.
  destruct (dispatch ws e s) as [[u s1] l1]. simpl.
  destruct (run rest s1) as [[u' s2] l2]. simpl. auto.
Qed.

Lemma run_app (first rest : list (WebSocket * event)) (s : session) :
  state_after (run (first ++ rest) s)
    = state_after (run rest (state_after (run first s))) /\
  log_of (run (first ++ rest) s)
    = log_of (run first s)
        ++ log_of (run rest (state_after (run first s))).
Proof.
  revert s. induction first as [|[ws e] first IH]; intros s.
  - simpl. auto.
  - rewrite <- app_comm_cons.
    destruct (run_cons ws e (first ++ rest) s) as [Hs Hl].
    destruct (run_cons ws e first s) as [Hs' Hl'].
    destruct (IH (state_after (dispatch ws e s))) as [IHs IHl].
    rewrite Hs, Hl, Hs', Hl', IHs, IHl, app_assoc. auto.
Qed.

(** A connect that arrives once the ['ready'] handler has set the flag is
    refused and touches nothing. *)
Lemma connect_refused_when_connected (ws : WebSocket) (m : ConnectMessage)
    (s : session) :
  is_open ws = true ->
  connected s = true ->
  on_message ws (Typed (Connect m)) s
    = (tt, s, [Send (Status st_error (Some "Already connected"))]).
Proof.
  intros Hopen Hc. simpl. unfold on_connect, bind, read.
  rewrite Hc. rewrite (sendStatus_open _ _ _ Hopen). reflexivity.
Qed.

(** ** Connect while an attempt is outstanding *)

(** C1 (as the code has it): a Connect with credentials that arrives while
    an earlier attempt is still unauthenticated (the session holds a Client,
    the connected flag is not set yet) is not refused. No "Already
    connected" status is sent; a new Client is constructed and takes the
    place of the old one in [sshClient], and the old one is not ended. *)
Theorem connect_before_ready_replaces_client
    (ws : WebSocket) (m : ConnectMessage) (s : session) (old : Client) :
  sshClient s = Some old ->
  connected s = false ->
  falsy (host m) || falsy (username m) || falsy (password m) = false ->
  let r := on_message ws (Typed (Connect m)) s in
  sshClient (state_after r) = Some (allocated s) /\
  allocated (state_after r) = S (allocated s) /\
  In (NewClient (allocated s)) (log_of r) /\
  ~ In (ClientEnd old) (log_of r) /\
  ~ In (Send (Status st_error (Some "Already connected"))) (log_of r).
Proof.
  intros Hold Hc Hcred r. subst r. simpl.
  unfold on_connect, bind, read. rewrite Hc, Hcred.
  unfold sendStatus. destruct (is_open ws); simpl;
    repeat split; auto; intros H;
    repeat (destruct H as [H|H]; [discriminate H|]); exact H.
Qed.

Lemma connect_before_ready_replaces_client_witness :
  sshClient awaiting_ready = Some 0 /\
  sshClient (state_after
               (on_message ws_open (Typed (Connect scenario_connect))
                  awaiting_ready)) = Some 1 /\
  ~ In (ClientEnd 0)
      (log_of (on_message ws_open (Typed (Connect scenario_connect))
                 awaiting_ready)).
Proof.
  destruct (connect_before_ready_replaces_client ws_open scenario_connect
              awaiting_ready 0 eq_refl eq_refl eq_refl)
    as (H1 & _ & _ & H4 & _).
  split; [reflexivity|]. split; [exact H1 | exact H4].
Defined.

(** C2 (as the code has it): after two Connect messages in a row, the second
    arriving before the first attempt is authenticated, the session has
    constructed two Clients and ended neither; [sshClient] refers to the
    second only. *)
Theorem two_connects_leave_two_live_clients :
  live_clients
    (log_of (run (deliver ws_open
                    [WsMessage (Typed (Connect scenario_connect));
                     WsMessage (Typed (Connect scenario_connect))])
               initial))
    = [0; 1] /\
  sshClient
    (state_after (run (deliver ws_open
                         [WsMessage (Typed (Connect scenario_connect));
                          WsMessage (Typed (Connect scenario_connect))])
                    initial))
    = Some 1.
Proof. split; reflexivity. Qed.

(** ** When the connected status is sent *)

(** C3 (amended): on an open WebSocket, Status(connected) is sent by the
    ['ready'] handler and by no other handler. That handler sends it first,
    sets the connected flag, asks the current Client for a shell with the
    dimensions of its connect and leaves [sshStream] as it was, so no
    stream need exist yet. The shell callback that delivers a stream sends
    nothing: it stores the stream, applies and clears a pending resize and
    registers the stream listeners. The failing shell callback sends
    Status(error) after Status(connected) has already gone out. *)
Theorem connected_status_sent_on_ready
    (ws : WebSocket) (e : event) (s : session) :
  is_open ws = true ->
  let r := dispatch ws e s in
  match e with
  | SshReady cols rows =>
      log_of r
        = Send (Status st_connected None)
            :: match sshClient s with
               | Some c => [ClientShell c cols rows "xterm-color"]
               | None => []
               end /\
      connected (state_after r) = true /\
      sshStream (state_after r) = sshStream s
  | ShellCallback None (Some ch) =>
      log_of r
        = match pendingResize s with
          | Some (pendingCols, pendingRows) =>
              [StreamSetWindow ch pendingRows pendingCols
                 (pendingRows * 8) (pendingCols * 8)]
          | None => []
          end ++ [StreamOn ch] /\
      sshStream (state_after r) = Some ch /\
      pendingResize (state_after r) = None /\
      connected (state_after r) = connected s
  | ShellCallback err _ =>
      sent (log_of r)
        = [Status st_error
             (Some match err with
                   | Some message => message
                   | None => "Failed to open shell"
                   end)] /\
      state_after r = cleaned s
  | _ => forall message, ~ In (Send (Status st_connected message)) (log_of r)
  end.
Proof.
  intros Hopen r. subst r.
  destruct ws as [rs]. destruct rs; try discriminate Hopen.
  destruct e as [raw| | |cols rows|msg| |err stream|data| |data].
  - destruct raw as [|[m|data|cols rows|]| |];
      destruct s as [[c|] [ch0|] b p n]; simpl;
      try (unfold on_connect, bind, read; simpl;
           destruct (falsy (host m) || falsy (username m)
                     || falsy (password m)));
      destruct b; simpl; not_in_log.
  - destruct s as [[c|] [ch0|] b p n]; simpl; not_in_log.
  - destruct s as [[c|] [ch0|] b p n]; simpl; not_in_log.
  - destruct s as [[c|] [ch0|] b p n]; simpl; auto.
  - destruct s as [[c|] [ch0|] b p n]; simpl; not_in_log.
  - destruct s as [[c|] [ch0|] b p n]; simpl; not_in_log.
  - destruct err as [msg|], stream as [ch|];
      destruct s as [[c|] [ch0|] b [[pc pr]|] n]; simpl; auto.
  - simpl; not_in_log.
  - destruct s as [[c|] [ch0|] b p n]; simpl; not_in_log.
  - simpl; not_in_log.
Qed.

Lemma connected_status_sent_on_ready_witness :
  log_of (dispatch ws_open (SshReady 80 24) awaiting_ready)
    = [Send (Status st_connected None); ClientShell 0 80 24 "xterm-color"] /\
  connected (state_after (dispatch ws_open (SshReady 80 24) awaiting_ready))
    = true /\
  sshStream (state_after (dispatch ws_open (SshReady 80 24) awaiting_ready))
    = None.
Proof.
  exact (connected_status_sent_on_ready ws_open (SshReady 80 24)
           awaiting_ready eq_refl).
Defined.

(** C3 (as stated) fails: after a Connect and the ['ready'] event the
    connected status has been sent although no shell stream exists, and a
    shell that then fails to open leaves the client with "connected"
    followed by the error. *)
Lemma connected_status_precedes_shell :
  In (Send (Status st_connected None))
     (log_of (dispatch ws_open (SshReady 80 24) awaiting_ready)) /\
  sshStream (state_after (dispatch ws_open (SshReady 80 24) awaiting_ready))
    = None /\
  sent (log_of
          (run (deliver ws_open
                  [WsMessage (Typed (Connect scenario_connect));
                   SshReady 80 24;
                   ShellCallback (Some "Unable to open shell") None])
             initial))
    = [Status st_connecting None; Status st_connected None;
       Status st_error (Some "Unable to open shell")].
Proof.
  repeat split. simpl. auto.
Qed.

(** ** Disconnect *)

(** C5 (amended): on an open WebSocket a Disconnect sends exactly one
    Status(disconnected, "Disconnected by client") when the connected flag
    is set or a shell stream exists, and sends nothing otherwise, also when
    a Client exists that is not authenticated yet. In both cases the status
    comes first, then the stream and the Client are ended, and the session
    is left as cleanup leaves it. *)
Theorem disconnect_status_follows_connected_flag (ws : WebSocket) (s : session) :
  is_open ws = true ->
  on_message ws (Typed Disconnect) s
    = (tt, cleaned s,
       (if connected s || present (sshStream s)
        then [Send (Status st_disconnected (Some "Disconnected by client"))]
        else [])
       ++ release s).
Proof.
  intros Hopen. destruct ws as [rs]. destruct rs; try discriminate Hopen.
  destruct s as [[c|] [ch|] [|] p n]; reflexivity.
Qed.

Lemma disconnect_status_follows_connected_flag_witness :
  on_message ws_open (Typed Disconnect)
    {| sshClient := Some 0; sshStream := Some 7; connected := true;
       pendingResize := None; allocated := 1 |}
  = (tt,
     {| sshClient := None; sshStream := None; connected := false;
        pendingResize := None; allocated := 1 |},
     [Send (Status st_disconnected (Some "Disconnected by client"));
      StreamEnd 7; ClientEnd 0]).
Proof.
  exact (disconnect_status_follows_connected_flag ws_open
           {| sshClient := Some 0; sshStream := Some 7; connected := true;
              pendingResize := None; allocated := 1 |} eq_refl).
Defined.

(** C5 (as stated) fails: a Disconnect that arrives while the first attempt
    is still unauthenticated finds a Client, ends it and tells the client
    nothing. *)
Lemma disconnect_before_ready_is_silent :
  sshClient awaiting_ready = Some 0 /\
  log_of (on_message ws_open (Typed Disconnect) awaiting_ready)
    = [ClientEnd 0] /\
  sent (log_of (on_message ws_open (Typed Disconnect) awaiting_ready)) = [].
Proof. repeat split. Qed.

(** ** A completion that arrives after teardown *)

(** C6 (as the code has it): when the ['ready'] event of an attempt arrives
    after cleanup has run, the handler still sends Status(connected) on an
    open WebSocket and sets the connected flag that cleanup had cleared; no
    shell is requested, as no Client is left. The session then holds no
    Client and refuses every Connect as already connected. *)
Theorem stale_ready_sets_connected
    (ws : WebSocket) (s : session) (cols rows : Z) (m : ConnectMessage) :
  connected (state_after (cleanup s)) = false /\
  connected (state_after (on_ready ws cols rows (state_after (cleanup s))))
    = true /\
  sshClient (state_after (on_ready ws cols rows (state_after (cleanup s))))
    = None /\
  log_of (on_ready ws cols rows (state_after (cleanup s)))
    = (if is_open ws then [Send (Status st_connected None)] else []) /\
  log_of (on_message ws (Typed (Connect m))
            (state_after (on_ready ws cols rows (state_after (cleanup s)))))
    = (if is_open ws
       then [Send (Status st_error (Some "Already connected"))]
       else []).
Proof.
  rewrite cleanup_spec. destruct ws as [rs]. destruct rs; repeat split.
Qed.

(** ** Input *)

(** C7: on an open WebSocket an Input message leaves the session variables
    as they are; when the session is not active (the connected flag is not
    set or there is no shell stream) the only call made is the sending of
    Status(error, "No active connection"), so nothing is written to the
    stream; when it is active the only call is the write of the data on
    the shell stream. *)
Theorem input_needs_active_session
    (ws : WebSocket) (s : session) (data : string) :
  is_open ws = true ->
  let r := on_message ws (Typed (Input data)) s in
  state_after r = s /\
  if active s
  then exists ch, sshStream s = Some ch /\ log_of r = [StreamWrite ch data]
  else log_of r = [Send (Status st_error (Some "No active connection"))].
Proof.
  intros Hopen r. subst r.
  destruct ws as [rs]. destruct rs; try discriminate Hopen.
  destruct s as [c [ch|] [|] p n]; simpl; split; try reflexivity.
  exists ch. split; reflexivity.
Qed.

Lemma input_needs_active_session_witness :
  state_after (on_message ws_open (Typed (Input "ls")) initial) = initial /\
  log_of (on_message ws_open (Typed (Input "ls")) initial)
    = [Send (Status st_error (Some "No active connection"))].
Proof.
  exact (input_needs_active_session ws_open initial "ls" eq_refl).
Defined.

(** ** Frames outside the protocol *)




(** ** Resize *)

Lemma resizes_without_stream (ws : WebSocket) (sizes : list (Z * Z))
    (s : session) :
  sshStream s = None ->
  run (deliver ws (resize_events sizes)) s
    = (tt,
       with_pending_values s
         (fold_left
            (fun _ size => Some (JsNumber (fst size), JsNumber (snd size)))
            sizes (pendingResize s)),
       []).
Proof.
  revert s. induction sizes as [|[c r] sizes IH]; intros s Hs.
  - simpl. unfold ret, with_pending_values. rewrite session_eta. reflexivity.
  - simpl. unfold bind at 1. unfold bind at 1. unfold read at 1.
    rewrite Hs. unfold set_pendingResize at 1.
    fold (with_pending_values s (Some (JsNumber c, JsNumber r))).
    change (map (fun e => (ws, e))
              (map (fun size : Z * Z =>
                      WsMessage (Typed (Resize (fst size) (snd size))))
                 sizes))
      with (deliver ws (resize_events sizes)).
    rewrite IH by exact Hs. reflexivity.
Qed.

(** C4: take a session without shell stream and any sequence of Resize
    messages ending with [cols] x [rows]. The messages make no call and
    leave exactly that last pair pending. When the shell callback then
    delivers a stream, the window is set once, to the last pair, on that
    stream, and nothing is pending any more. In a session that has a shell
    stream, a Resize sets the window of that stream at once and leaves the
    session variables, the pending resize among them, as they are. In any
    session, the shell callback that delivers a stream applies the pending
    pair, when there is one, once and leaves none. *)
Theorem pending_resize_latest_applied_once
    (ws : WebSocket) (s : session) (earlier : list (Z * Z)) (cols rows : Z)
    (ch : ClientChannel) :
  match sshStream s with
  | None =>
      let resizes := deliver ws (resize_events (earlier ++ [(cols, rows)])) in
      let stored := run resizes s in
      let ready := run (resizes ++ [(ws, ShellCallback None (Some ch))]) s in
      log_of stored = [] /\
      state_after stored = with_pending s (Some (cols, rows)) /\
      log_of ready
        = [StreamSetWindow ch rows cols (rows * 8) (cols * 8); StreamOn ch] /\
      pendingResize (state_after ready) = None /\
      sshStream (state_after ready) = Some ch
  | Some current =>
      on_message ws (Typed (Resize cols rows)) s
        = (tt, s,
           [StreamSetWindow current rows cols (rows * 8) (cols * 8)])
  end /\
  log_of (on_shell ws None (Some ch) s)
    = match pendingResize s with
      | Some (pendingCols, pendingRows) =>
          [StreamSetWindow ch pendingRows pendingCols
             (pendingRows * 8) (pendingCols * 8)]
      | None => []
      end ++ [StreamOn ch] /\
  pendingResize (state_after (on_shell ws None (Some ch) s)) = None.
Proof.
  split; [|destruct s as [c st b [[pc pr]|] n]; split; reflexivity].
  destruct (sshStream s) as [current|] eqn:Hs.
  - simpl. unfold bind, read. rewrite Hs. reflexivity.
  - intros resizes stored ready.
    assert (Hstored : stored = (tt, with_pending s (Some (cols, rows)), [])).
    { subst stored resizes. rewrite resizes_without_stream by exact Hs.
      rewrite fold_left_app. reflexivity. }
    destruct (run_app resizes [(ws, ShellCallback None (Some ch))] s)
      as [Hst Hlog].
    fold stored in Hst, Hlog. fold ready in Hst, Hlog.
    rewrite Hstored in *. rewrite Hst, Hlog.
    repeat split.
Qed.

(** ** A resize stored during an attempt that is replaced *)

(** C10 (as the code has it): a Connect, a Resize to 120 x 40, a second
    Connect before the first attempt is authenticated, then the ['ready']
    event and the shell callback with stream 7. No event of this run is a
    teardown, so cleanup never runs: the shell is requested on the Client
    of the second attempt, and the pair stored during the first attempt is
    applied to its stream. *)
Theorem resize_survives_replaced_attempt :
  existsb teardown (map snd overlapping_attempts) = false /\
  run overlapping_attempts initial
  = (tt,
     {| sshClient := Some 1; sshStream := Some 7; connected := true;
        pendingResize := None; allocated := 2 |},
     [NewClient 0; Send (Status st_connecting None); ClientOn 0 80 24;
      ClientConnect 0 "10.0.0.5" "root" "x" 22;
      NewClient 1; Send (Status st_connecting None); ClientOn 1 80 24;
      ClientConnect 1 "10.0.0.5" "root" "x" 22;
      Send (Status st_connected None); ClientShell 1 80 24 "xterm-color";
      StreamSetWindow 7 40 120 (40 * 8) (120 * 8); StreamOn 7]).
Proof. split; reflexivity. Qed.

(** ** Teardown and the pending resize *)

(** One step: a window call takes its size from the resize that was
    pending or from the Resize message being handled, and a resize pending
    afterwards was pending before or comes from that message. *)
Lemma window_size_origin (ws : WebSocket) (e : event) (s : session) :
  (forall ch r c h w,
      In (StreamSetWindow ch r c h w) (log_of (dispatch ws e s)) ->
      pendingResize s = Some (c, r) \/ e = WsMessage (Typed (Resize c r))) /\
  (forall c r,
      pendingResize (state_after (dispatch ws e s)) = Some (c, r) ->
      pendingResize s = Some (c, r) \/ e = WsMessage (Typed (Resize c r))).
Proof.
  destruct ws as [rs].
  destruct e as [raw| | |cols rows|msg| |err stream|data| |data].
  - destruct raw as [|[m|data|cols rows|]| |];
      destruct s as [[c0|] [ch0|] b [[pc pr]|] n]; simpl;
      try (unfold on_connect, bind, read; simpl;
           destruct (falsy (host m) || falsy (username m)
                     || falsy (password m)));
      destruct b, rs; simpl; split; intros; in_log.
  - destruct s as [[c0|] [ch0|] b [[pc pr]|] n]; simpl; split; intros; in_log.
  - destruct s as [[c0|] [ch0|] b [[pc pr]|] n]; simpl; split; intros; in_log.
  - destruct s as [[c0|] [ch0|] b [[pc pr]|] n], rs; simpl; split; intros;
      in_log.
  - destruct s as [[c0|] [ch0|] b [[pc pr]|] n], rs; simpl; split; intros;
      in_log.
  - destruct s as [[c0|] [ch0|] b [[pc pr]|] n], rs; simpl; split; intros;
      in_log.
  - destruct err as [msg|], stream as [ch1|];
      destruct s as [[c0|] [ch0|] b [[pc pr]|] n], rs; simpl; split; intros;
      in_log.
  - destruct rs; simpl; split; intros; in_log.
  - destruct s as [[c0|] [ch0|] b [[pc pr]|] n], rs; simpl; split; intros;
      in_log.
  - destruct rs; simpl; split; intros; in_log.
Qed.

Lemma window_sizes_of_run (deliveries : list (WebSocket * event)) :
  forall (s : session) (allowed : list (JsValue * JsValue)),
    (forall c r, pendingResize s = Some (c, r) -> In (c, r) allowed) ->
    forall ch r c h w,
      In (StreamSetWindow ch r c h w) (log_of (run deliveries s)) ->
      In (c, r) (allowed ++ resizes_of deliveries).
Proof.
  induction deliveries as [|[ws e] rest IH]; intros s allowed Hp ch r c h w Hin.
  - simpl in Hin. contradiction.
  - destruct (run_cons ws e rest s) as [_ Hlog]. rewrite Hlog in Hin.
    destruct (window_size_origin ws e s) as [Hcall Hnext].
    assert (Hsplit : resizes_of ((ws, e) :: rest)
                     = match e with
                       | WsMessage (Typed (Resize c' r')) => [(c', r')]
                       | _ => []
                       end ++ resizes_of rest).
    { destruct e as [[|[| | |]| |]| | | | | | | | |]; reflexivity. }
    rewrite Hsplit, app_assoc.
    apply in_app_or in Hin. destruct Hin as [Hin|Hin].
    + apply in_or_app. left. apply in_or_app.
      destruct (Hcall _ _ _ _ _ Hin) as [Hpend|He].
      * left. apply Hp. exact Hpend.
      * right. subst e. simpl. auto.
    + apply (IH (state_after (dispatch ws e s))
                (allowed ++ match e with
                            | WsMessage (Typed (Resize c' r')) => [(c', r')]
                            | _ => []
                            end) ) with (ch := ch) (h := h) (w := w);
        [|exact Hin].
      intros c1 r1 Hpend. apply in_or_app.
      destruct (Hnext _ _ Hpend) as [Hold|He].
      * left. apply Hp. exact Hold.
      * right. subst e. simpl. auto.
Qed.

(** X17: each teardown event (a Disconnect message, the close or error of
    the WebSocket, the error or end of the SSH session, the close of the
    remote stream, a shell that fails to open) leaves no resize pending;
    hence, in whatever the session does afterwards, every window call takes
    its size from a Resize message received after the teardown, never from
    one stored before it. *)
Theorem teardown_discards_pending_resize
    (ws : WebSocket) (e : event) (s : session)
    (later : list (WebSocket * event)) :
  teardown e = true ->
  let torn := state_after (dispatch ws e s) in
  pendingResize torn = None /\
  forall ch r c h w,
    In (StreamSetWindow ch r c h w) (log_of (run later torn)) ->
    In (c, r) (resizes_of later).
Proof.
  intros Htear torn.
  assert (Hnone : pendingResize torn = None).
  { subst torn. destruct ws as [rs].
    destruct e as [[|[| | |]| |]| | | | | |[msg|] [ch1|]| | |];
      try discriminate Htear;
      destruct s as [[c0|] [ch0|] b p n], rs; try destruct b; reflexivity. }
  split; [exact Hnone|].
  intros ch r c h w Hin.
  apply (window_sizes_of_run later torn []) with (ch := ch) (h := h) (w := w);
    [|exact Hin].
  intros c1 r1 Hpend. rewrite Hnone in Hpend. discriminate Hpend.
Qed.

Lemma teardown_discards_pending_resize_witness :
  pendingResize
    (state_after (dispatch ws_open (WsMessage (Typed Disconnect)) resized_early))
    = None /\
  In (JsNumber 100, JsNumber 30) (resizes_of reconnect).
Proof.
  destruct (teardown_discards_pending_resize ws_open
              (WsMessage (Typed Disconnect)) resized_early reconnect eq_refl)
    as [Hnone Hwin].
  split; [exact Hnone|].
  apply (Hwin 7 30%js 100%js (30 * 8)%js (100 * 8)%js). simpl. auto 10.
Defined.

(** ** Output relay *)

Local Open Scope string_scope.

Lemma N_of_byte (n : N) : (n < 256)%N -> N_of_ascii (byte n) = n.
Proof. apply N_ascii_embedding. Qed.

Lemma in_range_true (lo hi b : N) :
  (lo <= b)%N -> (b <= hi)%N -> in_range lo hi b = true.
Proof.
  intros H1 H2. unfold in_range.
  apply andb_true_intro. split; apply N.leb_le; assumption.
Qed.

Lemma in_range_false (lo hi b : N) :
  (b < lo \/ hi < b)%N -> in_range lo hi b = false.
Proof.
  intros H. unfold in_range. apply andb_false_iff.
  destruct H; [left|right]; apply N.leb_gt; assumption.
Qed.

Lemma decode_continuation (q : partial) (b : N) (rest : string) :
  (lower q <= b)%N -> (b <= upper q)%N -> (b < 256)%N ->
  decode (Some q) (String (byte b) rest)
  = match needed q with
    | S (S n) =>
        decode (Some {| seen := seen q ++ String (byte b) EmptyString;
                        needed := S n; lower := 0x80; upper := 0xBF |}) rest
    | _ => seen q ++ String (byte b) (decode None rest)
    end.
Proof.
  intros Hlo Hhi Hb. simpl decode.
  rewrite (N_of_byte b Hb), (in_range_true _ _ _ Hlo Hhi). reflexivity.
Qed.


Lemma is_scalar_value_spec (cp : N) :
  is_scalar_value cp = true ->
  (cp < 0xD800 \/ (0xE000 <= cp /\ cp <= 0x10FFFF))%N.
Proof.
  unfold is_scalar_value. intros H.
  apply orb_true_iff in H. destruct H as [H|H].
  - left. apply N.ltb_lt. exact H.
  - right. apply andb_true_iff in H. destruct H as [H1 H2].
    split; apply N.leb_le; assumption.
Qed.

Lemma decode_start (a : ascii) (rest : string) :
  decode None (String a rest) = lead a (fun q => decode q rest).
Proof. reflexivity. Qed.

Lemma decode_lead1 (b : N) (rest : string) :
  (b <= 0x7F)%N ->
  decode None (String (byte b) rest) = String (byte b) (decode None rest).
Proof.
  intros H. rewrite decode_start. unfold lead. rewrite N_of_byte by lia.
  apply N.leb_le in H. rewrite H. reflexivity.
Qed.

Lemma decode_lead2 (b : N) (rest : string) :
  (0xC2 <= b <= 0xDF)%N ->
  decode None (String (byte b) rest)
  = decode (Some {| seen := String (byte b) EmptyString; needed := 1;
                    lower := 0x80; upper := 0xBF |}) rest.
Proof.
  intros H. rewrite decode_start. unfold lead. rewrite N_of_byte by lia.
  replace (b <=? 0x7F)%N with false by (symmetry; apply N.leb_gt; lia).
  rewrite in_range_true by lia. reflexivity.
Qed.

Lemma decode_lead3 (b : N) (rest : string) :
  (0xE0 <= b <= 0xEF)%N ->
  decode None (String (byte b) rest)
  = decode (Some {| seen := String (byte b) EmptyString; needed := 2;
                    lower := if (b =? 0xE0)%N then 0xA0 else 0x80;
                    upper := if (b =? 0xED)%N then 0x9F else 0xBF |}) rest.
Proof.
  intros H. rewrite decode_start. unfold lead. rewrite N_of_byte by lia.
  replace (b <=? 0x7F)%N with false by (symmetry; apply N.leb_gt; lia).
  rewrite in_range_false by lia.
  rewrite in_range_true by lia. reflexivity.
Qed.

Lemma decode_lead4 (b : N) (rest : string) :
  (0xF0 <= b <= 0xF4)%N ->
  decode None (String (byte b) rest)
  = decode (Some {| seen := String (byte b) EmptyString; needed := 3;
                    lower := if (b =? 0xF0)%N then 0x90 else 0x80;
                    upper := if (b =? 0xF4)%N then 0x8F else 0xBF |}) rest.
Proof.
  intros H. rewrite decode_start. unfold lead. rewrite N_of_byte by lia.
  replace (b <=? 0x7F)%N with false by (symmetry; apply N.leb_gt; lia).
  rewrite in_range_false by lia.
  rewrite in_range_false by lia.
  rewrite in_range_true by lia. reflexivity.
Qed.

Lemma decode_encoded_scalar (cp : N) (rest : string) :
  is_scalar_value cp = true ->
  decode None (encode_cp cp ++ rest)
  = encode_cp cp ++ decode None rest.
Proof.
  intros Hscalar. apply is_scalar_value_spec in Hscalar.
  unfold encode_cp.
  destruct (N.ltb_spec cp 0x80) as [H1|H1];
    [|destruct (N.ltb_spec cp 0x800) as [H2|H2];
      [|destruct (N.ltb_spec cp 0x10000) as [H3|H3]]];
    cbn [append].
  - apply decode_lead1. lia.
  - rewrite decode_lead2 by byte_arith.
    rewrite decode_continuation by (cbn [lower upper]; byte_arith).
    reflexivity.
  - rewrite decode_lead3 by byte_arith.
    rewrite decode_continuation;
      [| cbn [lower]; destruct (N.eqb_spec (0xE0 + cp / 0x1000) 0xE0);
         byte_arith
       | cbn [upper]; destruct (N.eqb_spec (0xE0 + cp / 0x1000) 0xED);
         byte_arith
       | byte_arith ].
    cbn [needed seen].
    rewrite decode_continuation by (cbn [lower upper]; byte_arith).
    reflexivity.
  - rewrite decode_lead4 by byte_arith.
    rewrite decode_continuation;
      [| cbn [lower]; destruct (N.eqb_spec (0xF0 + cp / 0x40000) 0xF0);
         byte_arith
       | cbn [upper]; destruct (N.eqb_spec (0xF0 + cp / 0x40000) 0xF4);
         byte_arith
       | byte_arith ].
    cbn [needed seen].
    rewrite decode_continuation by (cbn [lower upper]; byte_arith).
    cbn [needed seen].
    rewrite decode_continuation by (cbn [lower upper]; byte_arith).
    reflexivity.
Qed.

Lemma toString_utf8_of_text (text : list N) :
  forallb is_scalar_value text = true ->
  toString_utf8 (encode text) = encode text.
Proof.
  unfold toString_utf8. induction text as [|cp text IH]; intros H.
  - reflexivity.
  - simpl in H. apply andb_true_iff in H. destruct H as [Hcp Htext].
    cbn [encode]. rewrite decode_encoded_scalar by exact Hcp.
    rewrite IH by exact Htext. reflexivity.
Qed.

Lemma stream_data_run (ws : WebSocket) (chunks : list Buffer) (s : session) :
  is_open ws = true ->
  run (deliver ws (map StreamData chunks)) s
    = (tt, s, map (fun data => Send (Output (toString_utf8 data))) chunks).
Proof.
  intros Hopen. induction chunks as [|data chunks IH].
  - reflexivity.
  - simpl. unfold bind at 1. unfold on_stream_data.
    rewrite (sendStatus_open _ _ _ Hopen).
    change (map (fun e => (ws, e)) (map StreamData chunks))
      with (deliver ws (map StreamData chunks)).
    rewrite IH. reflexivity.
Qed.

(** C8 (amended): on an open WebSocket, a sequence of chunks delivered by
    the shell stream produces exactly one Output message per chunk, in the
    order of delivery, and changes no session variable. The data of each
    message is the UTF-8 decoding of its chunk taken alone; it is the chunk
    itself whenever the chunk is well-formed UTF-8. *)
Theorem output_relay_decodes_each_chunk
    (ws : WebSocket) (s : session) (chunks : list Buffer) :
  is_open ws = true ->
  let r := run (deliver ws (map StreamData chunks)) s in
  state_after r = s /\
  log_of r = map (fun data => Send (Output (toString_utf8 data))) chunks /\
  (Forall well_formed_utf8 chunks ->
   log_of r = map (fun data => Send (Output data)) chunks).
Proof.
  intros Hopen r. subst r. rewrite (stream_data_run _ _ _ Hopen).
  repeat split. intros Hwf. simpl. apply map_ext_in.
  intros data Hin. rewrite Forall_forall in Hwf.
  destruct (Hwf data Hin) as [text [Hscalar ->]].
  rewrite toString_utf8_of_text by exact Hscalar. reflexivity.
Qed.

Lemma output_relay_decodes_each_chunk_witness :
  log_of (run (deliver ws_open
                 (map StreamData ["prompt$ "; encode [0xE9; 0x20AC; 0x1F600]%N]))
            relaying)
    = map (fun data => Send (Output data))
        ["prompt$ "; encode [0xE9; 0x20AC; 0x1F600]%N].
Proof.
  apply (output_relay_decodes_each_chunk ws_open relaying
           ["prompt$ "; encode [0xE9; 0x20AC; 0x1F600]%N] eq_refl).
  repeat constructor.
  - exists [0x70; 0x72; 0x6F; 0x6D; 0x70; 0x74; 0x24; 0x20]%N.
    split; reflexivity.
  - exists [0xE9; 0x20AC; 0x1F600]%N. split; reflexivity.
Defined.

(** C8 (as stated) fails: the two bytes of U+00E9, delivered in two chunks,
    reach the client as two replacement characters. *)
Lemma split_character_is_replaced :
  concat EmptyString split_e_acute = encode [0xE9%N] /\
  sent (log_of (run (deliver ws_open (map StreamData split_e_acute)) relaying))
    = [Output replacement; Output replacement] /\
  sent (log_of (run (deliver ws_open (map StreamData split_e_acute)) relaying))
    <> map Output split_e_acute.
Proof.
  repeat split. simpl. discriminate.
Qed.

(** * Further properties of the relay *)

Local Open Scope list_scope.

(** ** Connect: validation and the way to a shell *)

(** X1: on an open WebSocket a Connect whose host, username or password
    is falsy (absent, null, false, 0 or the empty string) changes nothing
    and is answered by exactly one error status:
    "Already connected" when the connected flag is set, as that test comes
    first, and "Missing required credentials" otherwise. *)
Theorem connect_without_credentials_is_refused
    (ws : WebSocket) (m : ConnectMessage) (s : session) :
  is_open ws = true ->
  falsy (host m) || falsy (username m) || falsy (password m) = true ->
  on_message ws (Typed (Connect m)) s
    = (tt, s,
       [Send (Status st_error
                (Some (if connected s then "Already connected"
                       else "Missing required credentials")))]).
Proof.
  intros Hopen Hcred. simpl. unfold on_connect, bind, read. rewrite Hcred.
  destruct (connected s); rewrite (sendStatus_open _ _ _ Hopen); reflexivity.
Qed.

Lemma connect_without_credentials_is_refused_witness :
  on_message ws_open (Typed (Connect no_password)) initial
    = (tt, initial,
       [Send (Status st_error (Some "Missing required credentials"))]).
Proof.
  exact (connect_without_credentials_is_refused ws_open no_password initial
           eq_refl eq_refl).
Defined.

(** X2: from a session whose connected flag is not set, an accepted
    Connect followed by the ['ready'] event of its Client and by the shell
    callback with a stream gives, on an open WebSocket: the new Client with
    its listeners and its connect call on the given host with port 22
    unless stated, the statuses connecting and connected, one shell request
    on that Client with 80 x 24 unless stated and terminal type
    xterm-color, the resize that was pending applied to the stream, and a
    session that holds the new Client and the stream with the flag set and
    nothing pending. *)
Theorem accepted_connect_reaches_shell
    (ws : WebSocket) (m : ConnectMessage) (s : session) (ch : ClientChannel) :
  is_open ws = true ->
  connected s = false ->
  falsy (host m) || falsy (username m) || falsy (password m) = false ->
  run (deliver ws
         [WsMessage (Typed (Connect m));
          SshReady (default 80 (cols m)) (default 24 (rows m));
          ShellCallback None (Some ch)]) s
  = (tt,
     {| sshClient := Some (allocated s); sshStream := Some ch;
        connected := true; pendingResize := None;
        allocated := S (allocated s) |},
     connect_calls m s
     ++ [Send (Status st_connected None);
         ClientShell (allocated s) (default 80 (cols m))
           (default 24 (rows m)) "xterm-color"]
     ++ match pendingResize s with
        | Some (pendingCols, pendingRows) =>
            [StreamSetWindow ch pendingRows pendingCols
               (pendingRows * 8) (pendingCols * 8)]
        | None => []
        end
     ++ [StreamOn ch]).
Proof.
  intros Hopen Hc Hcred.
  destruct ws as [rs]. destruct rs; try discriminate Hopen.
  destruct s as [c st b p n]. simpl in Hc. subst b.
  unfold deliver, run, map, dispatch, on_message, on_connect, bind, read.
  cbn [connected]. rewrite Hcred.
  destruct p as [[pc pr]|]; reflexivity.
Qed.

Lemma accepted_connect_reaches_shell_witness :
  run (deliver ws_open
         [WsMessage (Typed (Connect scenario_connect));
          SshReady 80 24;
          ShellCallback None (Some 7)]) initial
  = (tt, relaying,
     [NewClient 0; Send (Status st_connecting None); ClientOn 0 80 24;
      ClientConnect 0 "10.0.0.5" "root" "x" 22;
      Send (Status st_connected None); ClientShell 0 80 24 "xterm-color";
      StreamOn 7]).
Proof.
  exact (accepted_connect_reaches_shell ws_open scenario_connect initial 7
           eq_refl eq_refl eq_refl).
Defined.

(** ** Teardown *)

(** X3: handles are ended by the teardown events and by nothing else. A
    teardown event ends the stream the session holds, then the Client it
    holds, no other handle, and leaves the session as cleanup leaves it;
    any other event ends no handle. *)
Theorem handles_end_at_teardown_only
    (ws : WebSocket) (e : event) (s : session) :
  if teardown e
  then released (log_of (dispatch ws e s)) = release s /\
       state_after (dispatch ws e s) = cleaned s
  else released (log_of (dispatch ws e s)) = [].
Proof.
  handler_cases ws e s; try split; reflexivity.
Qed.

(** X4: a teardown that follows a teardown, with nothing in between, ends
    no handle a second time and leaves the session cleaned. *)
Theorem second_teardown_releases_nothing
    (ws1 ws2 : WebSocket) (e1 e2 : event) (s : session) :
  teardown e1 = true ->
  teardown e2 = true ->
  released (log_of (dispatch ws2 e2 (state_after (dispatch ws1 e1 s)))) = [] /\
  state_after (dispatch ws2 e2 (state_after (dispatch ws1 e1 s))) = cleaned s.
Proof.
  intros H1 H2.
  pose proof (handles_end_at_teardown_only ws1 e1 s) as F1.
  rewrite H1 in F1. destruct F1 as [_ F1]. rewrite F1.
  pose proof (handles_end_at_teardown_only ws2 e2 (cleaned s)) as F2.
  rewrite H2 in F2. exact F2.
Qed.

Lemma second_teardown_releases_nothing_witness :
  released (log_of (dispatch ws_open WsClose
                      (state_after (dispatch ws_open StreamClose relaying))))
    = [] /\
  state_after (dispatch ws_open WsClose
                 (state_after (dispatch ws_open StreamClose relaying)))
    = cleaned relaying.
Proof.
  exact (second_teardown_releases_nothing ws_open ws_open StreamClose WsClose
           relaying eq_refl eq_refl).
Defined.

(** X5: after any teardown event the session accepts a Connect with
    credentials again: a new Client is constructed and connected, and
    Status(connecting) is sent on an open WebSocket. *)
Theorem teardown_readies_next_connect
    (ws ws' : WebSocket) (e : event) (s : session) (m : ConnectMessage) :
  teardown e = true ->
  is_open ws' = true ->
  falsy (host m) || falsy (username m) || falsy (password m) = false ->
  on_message ws' (Typed (Connect m)) (state_after (dispatch ws e s))
    = (tt, connecting_from (cleaned s), connect_calls m (cleaned s)).
Proof.
  intros Htear Hopen Hcred.
  pose proof (handles_end_at_teardown_only ws e s) as F.
  rewrite Htear in F. destruct F as [_ F]. rewrite F.
  destruct ws' as [rs]. destruct rs; try discriminate Hopen.
  simpl. unfold on_connect, bind, read. simpl. rewrite Hcred. reflexivity.
Qed.

Lemma teardown_readies_next_connect_witness :
  on_message ws_open (Typed (Connect scenario_connect))
    (state_after (dispatch ws_open StreamClose relaying))
  = (tt,
     {| sshClient := Some 1; sshStream := None; connected := false;
        pendingResize := None; allocated := 2 |},
     [NewClient 1; Send (Status st_connecting None); ClientOn 1 80 24;
      ClientConnect 1 "10.0.0.5" "root" "x" 22]).
Proof.
  exact (teardown_readies_next_connect ws_open ws_open StreamClose relaying
           scenario_connect eq_refl eq_refl eq_refl).
Defined.

(** ** What every run keeps *)

Lemma pending_beside_stream_step (ws : WebSocket) (e : event) (s : session) :
  pending_beside_stream s = false ->
  pending_beside_stream (state_after (dispatch ws e s)) = false.
Proof.
  handler_cases ws e s; intros H; try discriminate H; reflexivity.
Qed.

(** X6: no run makes a resize pending beside a shell stream: if the
    session does not hold both at the start, it does not hold both after
    any sequence of events. A pending resize is therefore always one that
    waits for a stream. *)
Theorem pending_resize_waits_for_stream
    (deliveries : list (WebSocket * event)) (s : session) :
  pending_beside_stream s = false ->
  pending_beside_stream (state_after (run deliveries s)) = false.
Proof.
  revert s. induction deliveries as [|[ws e] rest IH]; intros s H.
  - exact H.
  - destruct (run_cons ws e rest s) as [Hs _]. rewrite Hs.
    apply IH. apply pending_beside_stream_step. exact H.
Qed.

Lemma pending_resize_waits_for_stream_witness :
  pending_beside_stream (state_after (run two_sessions initial)) = false.
Proof.
  exact (pending_resize_waits_for_stream two_sessions initial eq_refl).
Defined.

(** ** Input relay *)

(** X8: in a session with the connected flag set and a shell stream, a
    sequence of Input messages writes each data on that stream, unchanged
    and in the order of arrival, sends nothing to the client and changes
    no session variable. *)
Theorem inputs_are_written_in_order
    (ws : WebSocket) (s : session) (ch : ClientChannel)
    (datas : list string) :
  sshStream s = Some ch ->
  connected s = true ->
  run (deliver ws (input_events datas)) s
    = (tt, s, map (fun data : string => StreamWrite ch data) datas).
Proof.
  intros Hs Hc. induction datas as [|data datas IH].
  - reflexivity.
  - simpl. unfold bind at 1. unfold bind at 1. unfold bind at 1.
    unfold read at 1. unfold read at 1. rewrite Hs, Hc. unfold call at 1.
    change (map (fun e => (ws, e))
              (map (fun data : string => WsMessage (Typed (Input data)))
                 datas))
      with (deliver ws (input_events datas)).
    rewrite IH. reflexivity.
Qed.

Lemma inputs_are_written_in_order_witness :
  run (deliver ws_open (input_events ["ls"; " -la"; "pwd"])) relaying
    = (tt, relaying,
       [StreamWrite 7 "ls"; StreamWrite 7 " -la"; StreamWrite 7 "pwd"]).
Proof.
  exact (inputs_are_written_in_order ws_open relaying 7
           ["ls"; " -la"; "pwd"] eq_refl eq_refl).
Defined.

Lemma writes_app (l1 l2 : list effect) :
  writes (l1 ++ l2) = writes l1 ++ writes l2.
Proof.
  induction l1 as [|e l1 IH]; [reflexivity|].
  destruct e; simpl; rewrite IH; reflexivity.
Qed.

Lemma writes_step (ws : WebSocket) (e : event) (s : session) :
  writes (log_of (dispatch ws e s)) = []
  \/ exists data,
       e = WsMessage (Typed (Input data)) /\
       writes (log_of (dispatch ws e s)) = [data].
Proof.
  handler_cases ws e s; try (left; reflexivity);
    right; eexists; split; reflexivity.
Qed.

(** X9: the relay writes nothing of its own on the shell stream: in every
    run, each data written on a stream is the data of an Input message of
    that run. *)
Theorem writes_come_from_inputs
    (deliveries : list (WebSocket * event)) (s : session) :
  incl (writes (log_of (run deliveries s))) (inputs_of deliveries).
Proof.
  revert s. induction deliveries as [|[ws e] rest IH]; intros s.
  - simpl. apply incl_nil_l.
  - destruct (run_cons ws e rest s) as [_ Hl]. rewrite Hl, writes_app.
    destruct (writes_step ws e s) as [Hnone|[data [He Hone]]].
    + rewrite Hnone. simpl app.
      apply incl_tran with (inputs_of rest); [apply IH|].
      destruct e as [[|[| | |]| |]| | | | | | | | |]; simpl;
        try apply incl_refl. apply incl_tl, incl_refl.
    + rewrite Hone. subst e. simpl.
      apply incl_cons; [left; reflexivity|].
      apply incl_tl. apply IH.
Qed.

(** ** The state of the WebSocket *)

Lemma socket_state_step (ws ws' : WebSocket) (e : event) (s : session) :
  state_after (dispatch ws e s) = state_after (dispatch ws' e s) /\
  remote_calls (log_of (dispatch ws e s))
    = remote_calls (log_of (dispatch ws' e s)).
Proof.
  destruct ws' as [[]]; handler_cases ws e s; split; reflexivity.
Qed.

Lemma remote_calls_app (l1 l2 : list effect) :
  remote_calls (l1 ++ l2) = remote_calls l1 ++ remote_calls l2.
Proof. apply filter_app. Qed.

(** X10: the state of the WebSocket decides whether frames are sent and
    nothing else: two runs of the same events, whatever the socket states
    found at each delivery, end in the same session and make the same calls
    on Clients and streams, in the same order. *)
Theorem socket_state_only_gates_frames
    (deliveries deliveries' : list (WebSocket * event)) (s : session) :
  map snd deliveries = map snd deliveries' ->
  state_after (run deliveries s) = state_after (run deliveries' s) /\
  remote_calls (log_of (run deliveries s))
    = remote_calls (log_of (run deliveries' s)).
Proof.
  revert deliveries' s.
  induction deliveries as [|[ws e] rest IH];
    intros [|[ws' e'] rest'] s Hsame; try discriminate Hsame.
  - split; reflexivity.
  - simpl in Hsame. injection Hsame as <- Hrest.
    destruct (run_cons ws e rest s) as [Hs Hl].
    destruct (run_cons ws' e rest' s) as [Hs' Hl'].
    destruct (socket_state_step ws ws' e s) as [Hstate Hcalls].
    rewrite Hs, Hl, Hs', Hl', !remote_calls_app, Hcalls, <- Hstate.
    destruct (IH rest' (state_after (dispatch ws e s)) Hrest) as [IHs IHl].
    rewrite IHs, IHl. split; reflexivity.
Qed.

Lemma socket_state_only_gates_frames_witness :
  state_after (run two_sessions initial)
    = state_after
        (run (deliver {| readyState := CLOSING |} (map snd two_sessions))
           initial) /\
  remote_calls (log_of (run two_sessions initial))
    = remote_calls
        (log_of (run (deliver {| readyState := CLOSING |}
                        (map snd two_sessions)) initial)).
Proof.
  exact (socket_state_only_gates_frames two_sessions
           (deliver {| readyState := CLOSING |} (map snd two_sessions))
           initial eq_refl).
Defined.

Lemma sent_app (l1 l2 : list effect) :
  sent (l1 ++ l2) = sent l1 ++ sent l2.
Proof.
  induction l1 as [|e l1 IH]; [reflexivity|].
  destruct e; simpl; rewrite ?IH; reflexivity.
Qed.

Lemma sent_step (ws : WebSocket) (e : event) (s : session) :
  (is_open ws = false -> sent (log_of (dispatch ws e s)) = []) /\
  List.length (sent (log_of (dispatch ws e s))) <= 1.
Proof.
  handler_cases ws e s; split; intros; simpl;
    try discriminate; try reflexivity; auto.
Qed.

(** X11: while the WebSocket is not open no frame is sent: a run whose
    deliveries all find the socket in a state other than OPEN sends
    nothing, whatever the events. *)
Theorem closed_socket_sends_nothing
    (deliveries : list (WebSocket * event)) (s : session) :
  forallb (fun delivery => negb (is_open (fst delivery))) deliveries = true ->
  sent (log_of (run deliveries s)) = [].
Proof.
  revert s. induction deliveries as [|[ws e] rest IH]; intros s Hclosed.
  - reflexivity.
  - simpl in Hclosed. apply andb_true_iff in Hclosed.
    destruct Hclosed as [Hws Hrest]. apply negb_true_iff in Hws.
    destruct (run_cons ws e rest s) as [_ Hl]. rewrite Hl, sent_app.
    rewrite (proj1 (sent_step ws e s) Hws), (IH _ Hrest). reflexivity.
Qed.

Lemma closed_socket_sends_nothing_witness :
  sent (log_of (run (deliver {| readyState := CLOSED |}
                       (map snd two_sessions)) initial)) = [].
Proof.
  exact (closed_socket_sends_nothing
           (deliver {| readyState := CLOSED |} (map snd two_sessions))
           initial eq_refl).
Defined.

(** X12: a run sends at most one frame per event delivered: no handler
    answers an event with two frames. *)
Theorem at_most_one_frame_per_event
    (deliveries : list (WebSocket * event)) (s : session) :
  List.length (sent (log_of (run deliveries s))) <= List.length deliveries.
Proof.
  revert s. induction deliveries as [|[ws e] rest IH]; intros s.
  - simpl. auto.
  - destruct (run_cons ws e rest s) as [_ Hl].
    rewrite Hl, sent_app, length_app.
    pose proof (proj2 (sent_step ws e s)) as Hone.
    specialize (IH (state_after (dispatch ws e s))). simpl List.length. lia.
Qed.

(** ** Output relay: both channels *)

(** X13: on an open WebSocket the chunks of stdout and of stderr of the
    shell are relayed alike: a sequence of chunks of either kind gives one
    Output message per chunk, in the order of delivery, each with the
    UTF-8 decoding of its chunk and no mark of the channel it came from;
    no session variable changes. *)
Theorem stdout_and_stderr_are_merged
    (ws : WebSocket) (s : session) (chunks : list (bool * Buffer)) :
  is_open ws = true ->
  run (deliver ws (map chunk_event chunks)) s
    = (tt, s,
       map (fun chunk => Send (Output (toString_utf8 (snd chunk)))) chunks).
Proof.
  intros Hopen. induction chunks as [|[[|] data] chunks IH].
  - reflexivity.
  - simpl. unfold bind at 1. unfold on_stderr_data.
    rewrite (sendStatus_open _ _ _ Hopen).
    change (map (fun e => (ws, e)) (map chunk_event chunks))
      with (deliver ws (map chunk_event chunks)).
    rewrite IH. reflexivity.
  - simpl. unfold bind at 1. unfold on_stream_data.
    rewrite (sendStatus_open _ _ _ Hopen).
    change (map (fun e => (ws, e)) (map chunk_event chunks))
      with (deliver ws (map chunk_event chunks)).
    rewrite IH. reflexivity.
Qed.

Lemma stdout_and_stderr_are_merged_witness :
  run (deliver ws_open
         (map chunk_event [(false, "total 0"); (true, "ls: no such file");
                           (false, "prompt$ ")])) relaying
    = (tt, relaying,
       [Send (Output "total 0"); Send (Output "ls: no such file");
        Send (Output "prompt$ ")]).
Proof.
  exact (stdout_and_stderr_are_merged ws_open relaying
           [(false, "total 0"); (true, "ls: no such file");
            (false, "prompt$ ")] eq_refl).
Defined.

(** ** One Client at a time, for an orderly peer *)

Lemma orderly_step (ws : WebSocket) (e : event) (s : session) :
  match e with
  | WsMessage (Typed (Connect _)) => negb (present (sshClient s))
  | _ => true
  end = true ->
  fold_left track_client (log_of (dispatch ws e s)) (held s)
    = held (state_after (dispatch ws e s)).
Proof.
  handler_cases ws e s; intros H; try discriminate H; try reflexivity;
    unfold held; simpl;
    match goal with
    | |- context [Nat.eq_dec ?c ?c] =>
        destruct (Nat.eq_dec c c); [reflexivity|congruence]
    end.
Qed.

Lemma orderly_run (deliveries : list (WebSocket * event)) (s : session) :
  orderly deliveries s = true ->
  fold_left track_client (log_of (run deliveries s)) (held s)
    = held (state_after (run deliveries s)).
Proof.
  revert s. induction deliveries as [|[ws e] rest IH]; intros s H.
  - reflexivity.
  - simpl in H. apply andb_true_iff in H. destruct H as [He Hrest].
    destruct (run_cons ws e rest s) as [Hs Hl].
    rewrite Hs, Hl, fold_left_app, (orderly_step ws e s He).
    apply IH. exact Hrest.
Qed.

(** X14: when every Connect message of a run finds the session without
    Client, the Clients constructed and not ended are, after the run,
    exactly the one the session refers to, if any: at most one Client is
    live and none is lost. *)
Theorem orderly_peer_has_one_live_client
    (deliveries : list (WebSocket * event)) (s : session) :
  sshClient s = None ->
  orderly deliveries s = true ->
  live_clients (log_of (run deliveries s))
    = held (state_after (run deliveries s)) /\
  List.length (live_clients (log_of (run deliveries s))) <= 1.
Proof.
  intros Hnone Horderly.
  assert (Hlive : live_clients (log_of (run deliveries s))
                  = held (state_after (run deliveries s))).
  { rewrite <- (orderly_run deliveries s Horderly).
    unfold live_clients, held. rewrite Hnone. reflexivity. }
  split; [exact Hlive|].
  rewrite Hlive. unfold held.
  destruct (sshClient (state_after (run deliveries s))); simpl; auto.
Qed.

Lemma orderly_peer_has_one_live_client_witness :
  live_clients (log_of (run two_sessions initial))
    = held (state_after (run two_sessions initial)) /\
  List.length (live_clients (log_of (run two_sessions initial))) <= 1.
Proof.
  exact (orderly_peer_has_one_live_client two_sessions initial
           eq_refl eq_refl).
Defined.

(** ** A shell that arrives after teardown *)

(** X15: the shell callback does not test whether the session still wants
    the shell. When it delivers a stream after cleanup has run, the stream
    is adopted: the session holds it, without Client and with the
    connected flag clear. From then on a Resize sets the window of that
    stream at once, an Input is refused, and the next cleanup ends the
    stream. *)
Theorem late_stream_is_adopted
    (ws : WebSocket) (s : session) (ch : ClientChannel)
    (cols rows : Z) (data : string) :
  on_shell ws None (Some ch) (state_after (cleanup s))
    = (tt, state_after (set_sshStream (Some ch) (cleaned s)), [StreamOn ch]) /\
  log_of (on_message ws (Typed (Resize cols rows))
            (state_after (set_sshStream (Some ch) (cleaned s))))
    = [StreamSetWindow ch rows cols (rows * 8) (cols * 8)] /\
  log_of (on_message ws (Typed (Input data))
            (state_after (set_sshStream (Some ch) (cleaned s))))
    = (if is_open ws
       then [Send (Status st_error (Some "No active connection"))]
       else []) /\
  cleanup (state_after (set_sshStream (Some ch) (cleaned s)))
    = (tt, cleaned s, [StreamEnd ch]).
Proof.
  rewrite cleanup_spec. destruct ws as [[]]; repeat split.
Qed.

(** ** Nothing is written before the shell is there *)

Lemma no_write_without_ready (deliveries : list (WebSocket * event)) :
  forall s : session,
    connected s = false ->
    existsb is_ready deliveries = false ->
    writes (log_of (run deliveries s)) = [].
Proof.
  induction deliveries as [|[ws e] rest IH]; intros s Hc Hnone.
  - reflexivity.
  - simpl in Hnone. apply orb_false_iff in Hnone.
    destruct Hnone as [He Hrest].
    destruct (run_cons ws e rest s) as [_ Hl]. rewrite Hl, writes_app.
    assert (Hstep : writes (log_of (dispatch ws e s)) = [] /\
                    connected (state_after (dispatch ws e s)) = false).
    { revert Hc He. unfold is_ready.
      handler_cases ws e s; intros Hc He;
        try discriminate Hc; try discriminate He; split; reflexivity. }
    destruct Hstep as [Hw Hc']. rewrite Hw. simpl app.
    apply IH; assumption.
Qed.

Lemma no_write_without_shell (deliveries : list (WebSocket * event)) :
  forall s : session,
    sshStream s = None ->
    existsb is_shell deliveries = false ->
    writes (log_of (run deliveries s)) = [].
Proof.
  induction deliveries as [|[ws e] rest IH]; intros s Hs Hnone.
  - reflexivity.
  - simpl in Hnone. apply orb_false_iff in Hnone.
    destruct Hnone as [He Hrest].
    destruct (run_cons ws e rest s) as [_ Hl]. rewrite Hl, writes_app.
    assert (Hstep : writes (log_of (dispatch ws e s)) = [] /\
                    sshStream (state_after (dispatch ws e s)) = None).
    { revert Hs He. unfold is_shell.
      handler_cases ws e s; intros Hs He;
        try discriminate Hs; try discriminate He; split; reflexivity. }
    destruct Hstep as [Hw Hs']. rewrite Hw. simpl app.
    apply IH; assumption.
Qed.

(** X16: no input reaches the remote shell before the remote side has
    completed: a run that starts with the connected flag clear and
    delivers no ['ready'] event, or that starts without shell stream and
    delivers no shell callback with a stream, writes nothing on any
    stream, whatever messages the client sends. *)
Theorem no_write_before_ready_and_shell
    (deliveries : list (WebSocket * event)) (s : session) :
  (connected s = false /\ existsb is_ready deliveries = false) \/
  (sshStream s = None /\ existsb is_shell deliveries = false) ->
  writes (log_of (run deliveries s)) = [].
Proof.
  intros [[Hc Hnone]|[Hs Hnone]].
  - apply no_write_without_ready; assumption.
  - apply no_write_without_shell; assumption.
Qed.

Lemma no_write_before_ready_and_shell_witness :
  writes (log_of (run (deliver ws_open
                         [WsMessage (Typed (Connect scenario_connect));
                          WsMessage (Typed (Input "ls"));
                          SshReady 80 24;
                          WsMessage (Typed (Input "pwd"))]) initial)) = [].
Proof.
  apply (no_write_before_ready_and_shell
           (deliver ws_open
              [WsMessage (Typed (Connect scenario_connect));
               WsMessage (Typed (Input "ls"));
               SshReady 80 24;
               WsMessage (Typed (Input "pwd"))]) initial).
  right. split; reflexivity.
Defined.
